(** * container_api.client_api: a shallow embedding and its properties

    The module [src/container_api/client_api.py] has two public operations:

    - [strateos_id], a pure string transformation that may raise;
    - [matching_containers] (through [_mc_helper]), which builds one request,
      sends it to an Owlery server and unwraps the answer.

    Python [str] values are modelled as [string]; exceptions as values of
    [exn] carried by [result]; the remote server as a function from requests
    to outcomes; logging and the calls sent to the server as a trace of
    [event]s threaded through the helper. *)

From Stdlib Require Import String Ascii List ZArith Bool Lia.
From stdpp Require Import base gmap strings.
Import ListNotations.

Local Open Scope string_scope.

(** ** Exceptions and results *)

(** The exception classes that the module and the calls it makes can raise.
    [ApiException] carries its [str()] rendering, the other built-in
    exceptions their message; [OtherException] stands for any exception that
    is not an [owlery_client.ApiException] (class name and message). *)
Inductive exn : Type :=
  | ApiException (str : string)
  | ValueError (msg : string)
  | AttributeError (msg : string)
  | TypeError (msg : string)
  | KeyError (key : string)
  | OtherException (cls msg : string).

Inductive result (A : Type) : Type :=
  | Ok (a : A)
  | Raise (e : exn).
Arguments Ok {A} a.
Arguments Raise {A} e.

Definition returns {A} (r : result A) (a : A) : Prop := r = Ok a.
Definition raises {A} (r : result A) : Prop := exists e, r = Raise e.

(** ** Python string primitives *)

Module Str.

(** [s[n:]] for a non-negative [n]. *)
Fixpoint slice_from (n : nat) (s : string) : string :=
  match n, s with
  | O, _ => s
  | S _, EmptyString => EmptyString
  | S n', String _ s' => slice_from n' s'
  end.

(** [s.startswith(x)]. *)
Fixpoint startswith (s x : string) {struct x} : bool :=
  match x with
  | EmptyString => true
  | String a x' =>
      match s with
      | EmptyString => false
      | String b s' => Ascii.eqb a b && startswith s' x'
      end
  end.

(** [s.removeprefix(x)]: the tail after [x] when [s] starts with [x],
    otherwise [s] itself. *)
Definition removeprefix (s x : string) : string :=
  if startswith s x then slice_from (String.length x) s else s.

(** [s.rfind(c)] for a one-character [c]: the highest index of [c] in [s],
    or [-1]. *)
Fixpoint rfind (s : string) (c : ascii) : Z :=
  match s with
  | EmptyString => (-1)%Z
  | String a s' =>
      let r := rfind s' c in
      if (0 <=? r)%Z then (r + 1)%Z
      else if Ascii.eqb a c then 0%Z else (-1)%Z
  end.

(** [s.replace(old, new)] for a one-character [old]. *)
Fixpoint replace (s : string) (old : ascii) (new : string) : string :=
  match s with
  | EmptyString => EmptyString
  | String a s' =>
      if Ascii.eqb a old then new ++ replace s' old new
      else String a (replace s' old new)
  end.

(** [c in s] for a one-character [c]. *)
Fixpoint contains (s : string) (c : ascii) : bool :=
  match s with
  | EmptyString => false
  | String a s' => Ascii.eqb a c || contains s' c
  end.

End Str.

(** [os.path.basename] (posixpath): everything after the last ["/"]. *)
Definition basename (p : string) : string :=
  let i := (Str.rfind p "/"%char + 1)%Z in
  Str.slice_from (Z.to_nat i) p.

(** [html.escape(s)] with the default [quote=True]: five replacements, the
    ampersand first. *)
Definition html_escape (s : string) : string :=
  let s := Str.replace s "&"%char "&amp;" in
  let s := Str.replace s "<"%char "&lt;" in
  let s := Str.replace s ">"%char "&gt;" in
  let s := Str.replace s (ascii_of_nat 34) "&quot;" in
  let s := Str.replace s "'"%char "&#x27;" in
  s.

(** ** The fragment of [re] that [PREFIX_SPLITER] needs

    A compiled pattern is a sequence of items.  [AnyStar] is the greedy
    [.*]: it takes as many characters other than a newline as it can and
    gives them back one at a time when the rest of the pattern fails.
    [GroupOpen] and [GroupClose] delimit capture group 1. *)
Module re.

Inductive item : Type :=
  | AnyStar
  | Literal (c : ascii)
  | GroupOpen
  | GroupClose.

Definition Pattern := list item.

(** A match object: the subject and the span of group 1. *)
Record Match : Type := mkMatch {
  subject : string;
  start1 : nat;
  end1 : nat
}.

Definition newline : ascii := ascii_of_nat 10.

(** Backtracking matcher.  [s] is the rest of the subject at offset [pos];
    [g] holds the offsets recorded for group 1 so far.  The answer is the
    final pair of offsets, or [None] when no way of matching exists. *)
Fixpoint run (p : Pattern) (s : string) (pos : nat) (g : nat * nat)
  : option (nat * nat) :=
  match p with
  | [] => Some g
  | Literal c :: p' =>
      match s with
      | String a s' => if Ascii.eqb a c then run p' s' (S pos) g else None
      | EmptyString => None
      end
  | GroupOpen :: p' => run p' s pos (pos, snd g)
  | GroupClose :: p' => run p' s pos (fst g, pos)
  | AnyStar :: p' =>
      (fix star (s : string) (pos : nat) {struct s} : option (nat * nat) :=
         match s with
         | String a s' =>
             if Ascii.eqb a newline then run p' s pos g
             else match star s' (S pos) with
                  | Some r => Some r
                  | None => run p' s pos g
                  end
         | EmptyString => run p' s pos g
         end) s pos
  end.

(** [pattern.match(s)]: anchored at the start of [s], not at its end. *)
Definition match_ (p : Pattern) (s : string) : option Match :=
  match run p s 0 (0, 0) with
  | Some (b, e) => Some (mkMatch s b e)
  | None => None
  end.

(** [m.group(1)]. *)
Definition group1 (m : Match) : string :=
  substring (start1 m) (end1 m - start1 m) (subject m).

End re.

(** ** Module-level constants *)

(** The compiled pattern: dot-star, a hash sign, then group 1 around a second
    dot-star. *)
Definition PREFIX_SPLITER : re.Pattern :=
  [re.AnyStar; re.Literal "#"%char; re.GroupOpen; re.AnyStar; re.GroupClose].

(** The vendor names as they are written in the source, in source order. *)
Definition vendor_names : list string :=
  [ "Fisher";
    "ThermoFisher";
    "Eppendorf";
    "Costar";
    "USA Scientific";
    "Mesoscale";
    "Chemspeed";
    "E&K Scientific";
    "Sumitomo Bakelite Co.";
    "PerkinElmer";
    "Labcyte";
    "Greiner";
    "Corning";
    "Axygen";
    "Tradewinds" ].

Definition VENDOR_STRINGS : list string :=
  map (fun x => Str.replace (html_escape x) " "%char "%20") vendor_names.

(** ** strateos_id *)

(** The [for x in VENDOR_STRINGS] loop: the first [x] whose removal changes
    the string decides; [None] when the loop runs to its end. *)
Fixpoint strateos_id_loop (vendors : list string) (vendor_and_id : string)
  : option string :=
  match vendors with
  | [] => None
  | x :: vendors' =>
      let trimmed := Str.removeprefix vendor_and_id x in
      if negb (String.eqb trimmed vendor_and_id) then Some trimmed
      else strateos_id_loop vendors' vendor_and_id
  end.

Definition NoneType_has_no_group : string :=
  "'NoneType' object has no attribute 'group'".

Definition strateos_id (uri : string) : result string :=
  let suffix := basename uri in
  match re.match_ PREFIX_SPLITER suffix with
  | None => Raise (AttributeError NoneType_has_no_group)
  | Some m =>
      let vendor_and_id := re.group1 m in
      match strateos_id_loop VENDOR_STRINGS vendor_and_id with
      | Some trimmed => Ok trimmed
      | None => Raise (ValueError ("Unable to extract a strateos ID from " ++ uri))
      end
  end.

(** The text that [strateos_id] strips a vendor from: group 1 of the match of
    [PREFIX_SPLITER] on the basename, when there is a match. *)
Definition fragment_of (uri : string) : option string :=
  match re.match_ PREFIX_SPLITER (basename uri) with
  | Some m => Some (re.group1 m)
  | None => None
  end.

(** ** The Owlery client and the query helper *)

(** The Python values that a response of the client is made of. *)
#[warnings="-register-all"] Inductive pyval : Type :=
  | PyNone
  | PyBool (b : bool)
  | PyStr (s : string)
  | PyList (l : list pyval)
  | PyDict (d : gmap string pyval).

Definition NoneType_not_subscriptable : string :=
  "'NoneType' object is not subscriptable".

(** [v[k]] for a string key [k]. *)
Definition getitem (v : pyval) (k : string) : result pyval :=
  match v with
  | PyDict d =>
      match d !! k with
      | Some x => Ok x
      | None => Raise (KeyError k)
      end
  | PyNone => Raise (TypeError NoneType_not_subscriptable)
  | PyBool _ => Raise (TypeError "'bool' object is not subscriptable")
  | PyStr _ => Raise (TypeError "string indices must be integers, not 'str'")
  | PyList _ => Raise (TypeError "list indices must be integers or slices, not str")
  end.

(** [owlery_client.Configuration(host=...)]. *)
Record Configuration : Type := { host : string }.

(** One call of [DLQueriesApi.kbs_kb_instances_get], with the configuration
    of the client it goes through. *)
Record request : Type := {
  configuration : Configuration;
  kb : string;
  object : string;
  prefixes : string;
  direct : bool;
  include_deprecated : bool
}.

Inductive level : Type := ERROR | DEBUG.

(** What the helper does to the outside world, in order. *)
Inductive event : Type :=
  | ClientEnter (c : Configuration)
  | ClientExit
  | Sent (r : request)
  | Log (lvl : level) (fmt : string) (args : list pyval).

(** Computations that append to the trace and may raise. *)
Definition M (A : Type) : Type := list event -> list event * result A.

Definition ret {A} (a : A) : M A := fun t => (t, Ok a).

Definition bind {A B} (m : M A) (f : A -> M B) : M B :=
  fun t =>
    match m t with
    | (t', Ok a) => f a t'
    | (t', Raise e) => (t', Raise e)
    end.

Definition emit (ev : event) : M unit := fun t => ((t ++ [ev])%list, Ok tt).

Definition lift {A} (r : result A) : M A := fun t => (t, r).

Notation "x <- m ;; k" := (bind m (fun x => k))
  (at level 100, m at next level, right associativity).
Notation "m ;;; k" := (bind m (fun _ => k))
  (at level 100, right associativity).

(** [try: body / except owlery_client.ApiException as e: handler]. *)
Definition try_except_ApiException {A} (body : M A) (handler : string -> M A)
  : M A :=
  fun t =>
    match body t with
    | (t', Raise (ApiException e)) => handler e t'
    | other => other
    end.

(** [with owlery_client.ApiClient(configuration) as api_client: body]: the
    client is released on every way out of the body. *)
Definition with_ApiClient {A} (c : Configuration) (body : M A) : M A :=
  fun t =>
    let (t', r) := body (t ++ [ClientEnter c])%list in
    ((t' ++ [ClientExit])%list, r).

Definition trace {A} (m : M A) : list event := fst (m []).
Definition outcome {A} (m : M A) : result A := snd (m []).

(** The requests that a trace shows, oldest first. *)
Fixpoint requests (t : list event) : list request :=
  match t with
  | [] => []
  | Sent r :: t' => r :: requests t'
  | _ :: t' => requests t'
  end.

Definition nl : string := String (ascii_of_nat 10) EmptyString.

Definition default_base_url : string := "http://localhost:8080".
Definition default_kb_name : string := "sd2e-container-catalogs".

(** [container_spec] as [matching_containers] reads it. *)
Record ClassExpressionSpec : Type := {
  queryString : string;
  prefixMap : string
}.

Section Client.

(** The server behind [api_instance.kbs_kb_instances_get]: what it answers
    to, or raises on, each request. *)
Variable server : request -> result pyval.

Definition kbs_kb_instances_get (r : request) : M pyval :=
  fun t => ((t ++ [Sent r])%list, server r).

Definition _mc_helper (container_spec prefix_map : string)
    (addl_conditions : option string) (base_url kb_name : string)
  : M pyval :=
  let configuration := {| host := base_url |} in
  let instances := PyNone in
  instances <-
    with_ApiClient configuration
      (let kb := kb_name in
       let object := container_spec in
       let object :=
         match addl_conditions with
         | Some c => object ++ (" and " ++ c)
         | None => object
         end in
       let prefixes := prefix_map in
       let direct := false in
       let include_deprecated := true in
       try_except_ApiException
         (kbs_kb_instances_get
            {| configuration := configuration;
               kb := kb;
               object := object;
               prefixes := prefixes;
               direct := direct;
               include_deprecated := include_deprecated |})
         (fun e =>
            emit (Log ERROR
                    ("Exception when calling DLQueriesApi->kbs_kb_instances_get: "
                       ++ e ++ nl) []) ;;;
            ret instances)) ;;
  emit (Log DEBUG "Instances are %s" [instances]) ;;;
  returning <- lift (getitem instances "has_instance") ;;
  emit (Log DEBUG "Returning %s" [returning]) ;;;
  lift (getitem instances "has_instance").

Definition matching_containers (container_spec : ClassExpressionSpec)
    (base_url kb_name : string) (addl_conditions : option string)
  : M pyval :=
  _mc_helper (queryString container_spec) (prefixMap container_spec)
    addl_conditions base_url kb_name.

End Client.

(** The request that one call of [matching_containers] is shown to send
    (lemma [matching_containers_requests]). *)
Definition request_of (cs : ClassExpressionSpec) (base_url kb_name : string)
    (addl : option string) : request :=
  {| configuration := {| host := base_url |};
     kb := kb_name;
     object := match addl with
               | Some c => queryString cs ++ " and " ++ c
               | None => queryString cs
               end;
     prefixes := prefixMap cs;
     direct := false;
     include_deprecated := true |}.

(** Runs the helper from the empty trace down to the answer of the server. *)
Ltac run_helper :=
  unfold trace, outcome, matching_containers, _mc_helper, bind,
    with_ApiClient, try_except_ApiException, kbs_kb_instances_get, emit,
    lift, ret;
  cbn [app fst snd queryString prefixMap].

(** The body of [strateos_id] with the value of the module-level name
    [VENDOR_STRINGS], which the function reads when it is called, as a
    parameter.  At the table of the module it is [strateos_id] itself. *)
Definition strateos_id_with (VENDOR_STRINGS : list string) (uri : string)
  : result string :=
  let suffix := basename uri in
  match re.match_ PREFIX_SPLITER suffix with
  | None => Raise (AttributeError NoneType_has_no_group)
  | Some m =>
      let vendor_and_id := re.group1 m in
      match strateos_id_loop VENDOR_STRINGS vendor_and_id with
      | Some trimmed => Ok trimmed
      | None => Raise (ValueError ("Unable to extract a strateos ID from " ++ uri))
      end
  end.

(** ** Notions used to state further properties *)

(** The text of [s] before its first newline. *)
Fixpoint first_line (s : string) : string :=
  match s with
  | EmptyString => EmptyString
  | String a s' =>
      if Ascii.eqb a re.newline then EmptyString else String a (first_line s')
  end.

(** The text after the last hash sign of [s], when [s] has one. *)
Fixpoint after_last_hash (s : string) : option string :=
  match s with
  | EmptyString => None
  | String a s' =>
      match after_last_hash s' with
      | Some t => Some t
      | None => if Ascii.eqb a "#" then Some s' else None
      end
  end.

(** The expression that the comprehension of [VENDOR_STRINGS] applies to each
    declared name. *)
Definition vendor_string (x : string) : string :=
  Str.replace (html_escape x) " "%char "%20".

Definition is_ApiException (e : exn) : bool :=
  match e with ApiException _ => true | _ => false end.

Definition is_log (ev : event) : bool :=
  match ev with Log _ _ _ => true | _ => false end.

Definition is_error_log (ev : event) : bool :=
  match ev with Log ERROR _ _ => true | _ => false end.

(** * Properties *)

(** ** Strings *)

(** Let [simpl] compute a concatenation whose left part is a literal. *)
#[local] Arguments String.append !_ _ / : simpl nomatch.

Section StringFacts.

Implicit Types s t x : string.

Lemma append_nil_r s : s ++ "" = s.
Proof. induction s as [|a s IH]; simpl; [reflexivity | now rewrite IH]. Qed.

Lemma append_assoc s t x : (s ++ t) ++ x = s ++ (t ++ x).
Proof. induction s as [|a s IH]; simpl; [reflexivity | now rewrite IH]. Qed.

Lemma length_append s t :
  String.length (s ++ t) = String.length s + String.length t.
Proof. induction s as [|a s IH]; simpl; [reflexivity | now rewrite IH]. Qed.

Lemma startswith_append x t : Str.startswith (x ++ t) x = true.
Proof.
  induction x as [|a x IH]; simpl; [reflexivity |].
  now rewrite Ascii.eqb_refl, IH.
Qed.

Lemma slice_from_append x t : Str.slice_from (String.length x) (x ++ t) = t.
Proof.
  induction x as [|a x IH]; simpl; [now destruct t | exact IH].
Qed.

Lemma startswith_split s x :
  Str.startswith s x = true -> s = x ++ Str.slice_from (String.length x) s.
Proof.
  revert s; induction x as [|a x IH]; intros s H; simpl in *.
  - now destruct s.
  - destruct s as [|b s]; [discriminate |].
    apply andb_prop in H as [Hab Hx].
    apply Ascii.eqb_eq in Hab; subst b.
    simpl. f_equal. now apply IH.
Qed.

Lemma substring_append x t :
  substring (String.length x) (String.length t) (x ++ t) = t.
Proof.
  induction x as [|a x IH]; simpl; [| exact IH].
  induction t as [|b t IHt]; simpl; [reflexivity | now rewrite IHt].
Qed.

Lemma contains_append s t c :
  Str.contains (s ++ t) c = Str.contains s c || Str.contains t c.
Proof.
  induction s as [|a s IH]; simpl; [reflexivity |].
  now rewrite IH, orb_assoc.
Qed.

(** Removing a prefix leaves the string as it was exactly when the prefix
    is absent or empty. *)
Lemma removeprefix_changed s x :
  String.eqb (Str.removeprefix s x) s = false <->
  Str.startswith s x = true /\ x <> "".
Proof.
  unfold Str.removeprefix.
  destruct (Str.startswith s x) eqn:Hsw.
  - pose proof (startswith_split _ _ Hsw) as Hs.
    revert Hs. generalize (Str.slice_from (String.length x) s). intros t Hs.
    rewrite String.eqb_neq. split.
    + intros Hne. split; [reflexivity |]. intros Hx. apply Hne.
      rewrite Hs, Hx. reflexivity.
    + intros [_ Hx] Heq.
      apply (f_equal String.length) in Heq.
      rewrite Hs, length_append in Heq.
      destruct x; [now apply Hx | simpl in Heq; lia].
  - rewrite String.eqb_refl. split; [discriminate | intros [? _]; discriminate].
Qed.

End StringFacts.

(** ** basename *)

Section BasenameFacts.

Implicit Types s d : string.

Lemma rfind_absent s c : Str.contains s c = false -> Str.rfind s c = (-1)%Z.
Proof.
  induction s as [|a s IH]; simpl; [reflexivity |].
  intros H. apply orb_false_elim in H as [Ha Hs].
  now rewrite (IH Hs), Ha.
Qed.

Lemma rfind_last d s c :
  Str.contains s c = false ->
  Str.rfind (d ++ String c s) c = Z.of_nat (String.length d).
Proof.
  intros Hs. induction d as [|a d IH].
  - simpl. now rewrite (rfind_absent _ _ Hs), Ascii.eqb_refl.
  - change (String a d ++ String c s) with (String a (d ++ String c s)).
    cbn [Str.rfind]. rewrite IH.
    destruct (Z.leb_spec 0 (Z.of_nat (String.length d))); simpl String.length; lia.
Qed.

(** The basename of a path is what follows its last separator. *)
Lemma basename_last d s :
  Str.contains s "/" = false -> basename (d ++ String "/" s) = s.
Proof.
  intros Hs. unfold basename. rewrite (rfind_last _ _ _ Hs).
  replace (Z.to_nat (Z.of_nat (String.length d) + 1))
    with (String.length (d ++ "/")) by (rewrite length_append; simpl; lia).
  replace (d ++ String "/" s) with ((d ++ "/") ++ s)
    by (now rewrite append_assoc).
  apply slice_from_append.
Qed.

Lemma basename_no_sep s : Str.contains s "/" = false -> basename s = s.
Proof.
  intros Hs. unfold basename. now rewrite (rfind_absent _ _ Hs).
Qed.

End BasenameFacts.

(** ** The matcher on PREFIX_SPLITER *)

Section RegexFacts.

Implicit Types (p : re.Pattern) (s : string) (g : nat * nat).

Lemma run_star_cons p a s pos g :
  re.run (re.AnyStar :: p) (String a s) pos g =
  if Ascii.eqb a re.newline then re.run p (String a s) pos g
  else match re.run (re.AnyStar :: p) s (S pos) g with
       | Some r => Some r
       | None => re.run p (String a s) pos g
       end.
Proof. reflexivity. Qed.

Lemma run_literal_same c p s pos g :
  re.run (re.Literal c :: p) (String c s) pos g = re.run p s (S pos) g.
Proof. cbn [re.run]. now rewrite Ascii.eqb_refl. Qed.

Lemma run_open p s pos g :
  re.run (re.GroupOpen :: p) s pos g = re.run p s pos (pos, snd g).
Proof. reflexivity. Qed.

(** Without a hash sign ahead, dot-star followed by a hash sign fails. *)
Lemma run_star_hash_absent p s pos g :
  Str.contains s "#" = false ->
  re.run (re.AnyStar :: re.Literal "#" :: p) s pos g = None.
Proof.
  revert pos; induction s as [|a s IH]; intros pos Hc; [reflexivity |].
  simpl in Hc. apply orb_false_elim in Hc as [Ha Hs].
  rewrite run_star_cons, (IH _ Hs).
  assert (Hlit : re.run (re.Literal "#" :: p) (String a s) pos g = None)
    by (cbn [re.run]; now rewrite Ha).
  rewrite Hlit. now destruct (Ascii.eqb a re.newline).
Qed.

(** On a text without newline, the closing dot-star takes it all. *)
Lemma run_star_close s pos g :
  Str.contains s re.newline = false ->
  re.run [re.AnyStar; re.GroupClose] s pos g
  = Some (fst g, pos + String.length s).
Proof.
  revert pos; induction s as [|a s IH]; intros pos Hc.
  - simpl. do 2 f_equal. lia.
  - simpl in Hc. apply orb_false_elim in Hc as [Ha Hs].
    rewrite run_star_cons, Ha, (IH _ Hs). simpl. do 2 f_equal. lia.
Qed.

Lemma run_PREFIX_SPLITER pre frag pos g :
  Str.contains pre re.newline = false ->
  Str.contains frag "#" = false ->
  Str.contains frag re.newline = false ->
  re.run PREFIX_SPLITER (pre ++ String "#" frag) pos g
  = Some (pos + String.length pre + 1,
          pos + String.length pre + 1 + String.length frag).
Proof.
  intros Hp Hh Hn. unfold PREFIX_SPLITER.
  revert pos; induction pre as [|a pre IH]; intros pos.
  - change ("" ++ String "#" frag) with (String "#" frag).
    rewrite run_star_cons.
    change (Ascii.eqb "#" re.newline) with false. cbv iota.
    rewrite (run_star_hash_absent _ _ _ _ Hh).
    rewrite run_literal_same, run_open, (run_star_close _ _ _ Hn).
    simpl. do 2 f_equal; lia.
  - simpl in Hp. apply orb_false_elim in Hp as [Ha Hp].
    change (String a pre ++ String "#" frag)
      with (String a (pre ++ String "#" frag)).
    rewrite run_star_cons, Ha, (IH Hp). simpl. do 2 f_equal; lia.
Qed.

(** A subject of the shape [pre#frag] matches, and group 1 is [frag]. *)
Lemma match_PREFIX_SPLITER pre frag :
  Str.contains pre re.newline = false ->
  Str.contains frag "#" = false ->
  Str.contains frag re.newline = false ->
  exists m, re.match_ PREFIX_SPLITER (pre ++ String "#" frag) = Some m
            /\ re.group1 m = frag.
Proof.
  intros Hp Hh Hn. unfold re.match_.
  rewrite (run_PREFIX_SPLITER _ _ _ _ Hp Hh Hn).
  eexists; split; [reflexivity |].
  unfold re.group1. cbn [re.start1 re.end1 re.subject].
  replace (0 + String.length pre + 1 + String.length frag
           - (0 + String.length pre + 1)) with (String.length frag) by lia.
  replace (0 + String.length pre + 1) with (String.length (pre ++ "#"))
    by (rewrite length_append; simpl; lia).
  replace (pre ++ String "#" frag) with ((pre ++ "#") ++ frag)
    by (now rewrite append_assoc).
  apply substring_append.
Qed.

(** A subject without a hash sign does not match. *)
Lemma match_PREFIX_SPLITER_none s :
  Str.contains s "#" = false -> re.match_ PREFIX_SPLITER s = None.
Proof.
  intros Hs. unfold re.match_, PREFIX_SPLITER.
  now rewrite (run_star_hash_absent _ _ _ _ Hs).
Qed.

End RegexFacts.

(** ** strateos_id *)

Section StrateosFacts.

Implicit Types (uri frag x s : string) (vs : list string).

Lemma strateos_id_fragment uri :
  strateos_id uri =
  match fragment_of uri with
  | None => Raise (AttributeError NoneType_has_no_group)
  | Some frag =>
      match strateos_id_loop VENDOR_STRINGS frag with
      | Some trimmed => Ok trimmed
      | None =>
          Raise (ValueError ("Unable to extract a strateos ID from " ++ uri))
      end
  end.
Proof.
  unfold strateos_id, fragment_of.
  now destruct (re.match_ PREFIX_SPLITER (basename uri)).
Qed.

(** The fragment of a URI written [dir/name#frag]. *)
Lemma fragment_of_uri dir name frag :
  Str.contains name "/" = false ->
  Str.contains name re.newline = false ->
  Str.contains frag "/" = false ->
  Str.contains frag "#" = false ->
  Str.contains frag re.newline = false ->
  fragment_of (dir ++ "/" ++ name ++ "#" ++ frag) = Some frag.
Proof.
  intros Hn1 Hn2 Hf1 Hf2 Hf3. unfold fragment_of.
  change (dir ++ "/" ++ name ++ "#" ++ frag)
    with (dir ++ String "/" (name ++ String "#" frag)).
  rewrite basename_last.
  - destruct (match_PREFIX_SPLITER name frag Hn2 Hf2 Hf3) as (m & -> & Hg).
    now rewrite Hg.
  - rewrite contains_append. simpl. now rewrite Hn1, Hf1.
Qed.

(** A URI whose basename has no hash sign has no fragment. *)
Lemma fragment_of_no_hash uri :
  Str.contains (basename uri) "#" = false -> fragment_of uri = None.
Proof.
  intros H. unfold fragment_of. now rewrite (match_PREFIX_SPLITER_none _ H).
Qed.

(** The table as the interpreter holds it once the module is loaded. *)
Lemma VENDOR_STRINGS_eq :
  VENDOR_STRINGS =
  [ "Fisher"; "ThermoFisher"; "Eppendorf"; "Costar"; "USA%20Scientific";
    "Mesoscale"; "Chemspeed"; "E&amp;K%20Scientific";
    "Sumitomo%20Bakelite%20Co."; "PerkinElmer"; "Labcyte"; "Greiner";
    "Corning"; "Axygen"; "Tradewinds" ].
Proof. reflexivity. Qed.

Lemma VENDOR_STRINGS_nonempty x : In x VENDOR_STRINGS -> x <> "".
Proof.
  rewrite VENDOR_STRINGS_eq. simpl.
  intros H; repeat destruct H as [<- | H]; try discriminate; contradiction.
Qed.

Lemma VENDOR_STRINGS_lookup i :
  VENDOR_STRINGS !! i =
  (fun n => Str.replace (html_escape n) " " "%20") <$> vendor_names !! i.
Proof. unfold VENDOR_STRINGS. apply list_lookup_fmap. Qed.

(** The loop skips a vendor that is not a prefix. *)
Lemma strateos_id_loop_skip x vs s :
  Str.startswith s x = false ->
  strateos_id_loop (x :: vs) s = strateos_id_loop vs s.
Proof.
  intros H. cbn [strateos_id_loop]. unfold Str.removeprefix.
  now rewrite H, String.eqb_refl.
Qed.

(** The loop stops at a non-empty vendor that is a prefix. *)
Lemma strateos_id_loop_hit x vs s :
  Str.startswith s x = true -> x <> "" ->
  strateos_id_loop (x :: vs) s = Some (Str.slice_from (String.length x) s).
Proof.
  intros Hsw Hx. cbn [strateos_id_loop].
  assert (E : String.eqb (Str.removeprefix s x) s = false)
    by now apply removeprefix_changed.
  rewrite E. unfold Str.removeprefix. now rewrite Hsw.
Qed.

Lemma strateos_id_loop_none vs s :
  (forall x, In x vs -> Str.startswith s x = false) ->
  strateos_id_loop vs s = None.
Proof.
  induction vs as [|x vs IH]; intros H; [reflexivity |].
  rewrite strateos_id_loop_skip by (apply H; now left).
  apply IH. intros y Hy. apply H. now right.
Qed.

Lemma strateos_id_loop_first vs i x s :
  vs !! i = Some x -> x <> "" ->
  Str.startswith s x = true ->
  (forall j w, j < i -> vs !! j = Some w -> Str.startswith s w = false) ->
  strateos_id_loop vs s = Some (Str.slice_from (String.length x) s).
Proof.
  revert i; induction vs as [|y vs IH]; intros i Hi Hx Hsw Hbefore.
  - destruct i; discriminate.
  - destruct i as [|i].
    + injection Hi as ->. now apply strateos_id_loop_hit.
    + rewrite strateos_id_loop_skip by (apply (Hbefore 0); [lia | reflexivity]).
      apply (IH i); try assumption.
      intros j w Hj Hw. apply (Hbefore (S j)); [lia | exact Hw].
Qed.

(** The loop as a search for the first non-empty prefix. *)
Lemma strateos_id_loop_find vs s :
  strateos_id_loop vs s =
  match List.find (fun x => Str.startswith s x && negb (String.eqb x "")) vs with
  | Some x => Some (Str.slice_from (String.length x) s)
  | None => None
  end.
Proof.
  induction vs as [|x vs IH]; [reflexivity |].
  cbn [List.find].
  destruct (Str.startswith s x) eqn:Hsw; cbn [andb].
  - destruct (String.eqb_spec x "") as [-> | Hx]; cbn [negb].
    + rewrite <- IH. cbn [strateos_id_loop]. unfold Str.removeprefix.
      simpl. now rewrite String.eqb_refl.
    + now apply strateos_id_loop_hit.
  - rewrite <- IH. now apply strateos_id_loop_skip.
Qed.

(** No vendor string is a proper prefix of another, so on a vendor
    followed by an identifier the loop stops at that vendor. *)
Lemma strateos_id_loop_vendor v cid :
  In v VENDOR_STRINGS ->
  strateos_id_loop VENDOR_STRINGS (v ++ cid) = Some cid.
Proof.
  rewrite strateos_id_loop_find, VENDOR_STRINGS_eq. simpl In.
  intros H; repeat destruct H as [<- | H]; try contradiction; reflexivity.
Qed.

Lemma strateos_id_vendor_then_id uri v cid :
  In v VENDOR_STRINGS ->
  fragment_of uri = Some (v ++ cid) ->
  strateos_id uri = Ok cid.
Proof.
  intros Hv Hf.
  now rewrite strateos_id_fragment, Hf, (strateos_id_loop_vendor _ _ Hv).
Qed.

Lemma strateos_id_no_match uri :
  re.match_ PREFIX_SPLITER (basename uri) = None ->
  strateos_id uri = Raise (AttributeError NoneType_has_no_group).
Proof. intros H. unfold strateos_id. now rewrite H. Qed.

(** The embedding on a few inputs: the basename keeps the fragment, the last
    hash sign of the first line delimits it, a newline ends it, and a
    separator after the hash sign cuts the fragment off the basename. *)
Example basename_keeps_fragment :
  basename "https://example.org/cat#FisherABC123" = "cat#FisherABC123".
Proof. reflexivity. Qed.

Example fragment_of_last_hash :
  fragment_of "https://example.org/cat#a#Fisher1" = Some "Fisher1".
Proof. reflexivity. Qed.

Example fragment_of_first_line :
  fragment_of ("x#Fisher1" ++ nl ++ "y#z") = Some "Fisher1".
Proof. reflexivity. Qed.

Example fragment_of_separator_after_hash :
  fragment_of "https://example.org/cat#Fisher/ABC" = None.
Proof. reflexivity. Qed.

Example strateos_id_NoHashHere :
  strateos_id "https://example.org/cat#NoHashHere"
  = Raise (ValueError
             "Unable to extract a strateos ID from https://example.org/cat#NoHashHere").
Proof. reflexivity. Qed.

Example strateos_id_escaped_vendor :
  strateos_id "https://example.org/cat#E&amp;K%20Scientific648" = Ok "648".
Proof. reflexivity. Qed.

Example strateos_id_unescaped_vendor :
  strateos_id "https://example.org/cat#USA Scientific1402"
  = Raise (ValueError
             "Unable to extract a strateos ID from https://example.org/cat#USA Scientific1402").
Proof. reflexivity. Qed.

End StrateosFacts.

(** ** Claims about strateos_id *)

(** C4. On a URI whose fragment is an entry of the vendor table followed by
    a catalog id, [strateos_id] returns the catalog id, the vendor removed;
    in particular it maps [https://example.org/cat#FisherABC123] to [ABC123]
    and [https://example.org/cat#Corning96WellPlate] to [96WellPlate]. *)
Theorem strateos_id_strips_vendor :
  (forall uri v cid,
      In v VENDOR_STRINGS ->
      fragment_of uri = Some (v ++ cid) ->
      strateos_id uri = Ok cid)
  /\ strateos_id "https://example.org/cat#FisherABC123" = Ok "ABC123"
  /\ strateos_id "https://example.org/cat#Corning96WellPlate" = Ok "96WellPlate".
Proof.
  split; [exact strateos_id_vendor_then_id | split; reflexivity].
Qed.

Lemma strateos_id_strips_vendor_witness :
  In "Labcyte" VENDOR_STRINGS
  /\ fragment_of "https://sift.net/strateos-catalog#LabcyteP-05525"
     = Some ("Labcyte" ++ "P-05525")
  /\ strateos_id "https://sift.net/strateos-catalog#LabcyteP-05525"
     = Ok "P-05525".
Proof.
  assert (Hin : In "Labcyte" VENDOR_STRINGS) by (simpl; tauto).
  assert (Hf : fragment_of "https://sift.net/strateos-catalog#LabcyteP-05525"
               = Some ("Labcyte" ++ "P-05525")) by reflexivity.
  split; [exact Hin | split; [exact Hf |]].
  exact (proj1 strateos_id_strips_vendor _ _ _ Hin Hf).
Defined.

(** C5, evaluated on the code.  A URI whose basename has no hash sign does
    not match [PREFIX_SPLITER]; [re.match] answers [None] and the call of
    [group] on it raises an [AttributeError], which is not the [ValueError]
    that an unknown vendor gets. *)
Theorem strateos_id_unmatched_suffix_AttributeError :
  re.match_ PREFIX_SPLITER (basename "https://example.org/cat") = None
  /\ strateos_id "https://example.org/cat"
     = Raise (AttributeError NoneType_has_no_group)
  /\ (forall msg, strateos_id "https://example.org/cat" <> Raise (ValueError msg))
  /\ strateos_id "https://example.org/cat#UnknownVendorXYZ"
     = Raise (ValueError
                "Unable to extract a strateos ID from https://example.org/cat#UnknownVendorXYZ").
Proof.
  assert (E : strateos_id "https://example.org/cat"
              = Raise (AttributeError NoneType_has_no_group)) by reflexivity.
  split; [reflexivity | split; [exact E | split; [| reflexivity]]].
  intros msg H. rewrite E in H. discriminate H.
Qed.

(** C6. On a URI whose fragment starts with no entry of the vendor table,
    [strateos_id] returns nothing: it raises the [ValueError] that names the
    URI. *)
Theorem strateos_id_unknown_vendor_raises uri frag :
  fragment_of uri = Some frag ->
  (forall v, In v VENDOR_STRINGS -> Str.startswith frag v = false) ->
  strateos_id uri
  = Raise (ValueError ("Unable to extract a strateos ID from " ++ uri))
  /\ raises (strateos_id uri)
  /\ (forall r, ~ returns (strateos_id uri) r).
Proof.
  intros Hf Hv.
  assert (E : strateos_id uri
              = Raise (ValueError ("Unable to extract a strateos ID from " ++ uri)))
    by now rewrite strateos_id_fragment, Hf, (strateos_id_loop_none _ _ Hv).
  split; [exact E |]. split.
  - eexists. exact E.
  - intros r Hr. unfold returns in Hr. rewrite E in Hr. discriminate Hr.
Qed.

Lemma strateos_id_unknown_vendor_raises_witness :
  strateos_id "https://example.org/cat#UnknownVendorXYZ"
  = Raise (ValueError
             ("Unable to extract a strateos ID from "
                ++ "https://example.org/cat#UnknownVendorXYZ"))
  /\ raises (strateos_id "https://example.org/cat#UnknownVendorXYZ")
  /\ (forall r, ~ returns (strateos_id "https://example.org/cat#UnknownVendorXYZ") r).
Proof.
  apply (strateos_id_unknown_vendor_raises
           "https://example.org/cat#UnknownVendorXYZ" "UnknownVendorXYZ").
  - reflexivity.
  - intros v Hv. simpl in Hv.
    repeat destruct Hv as [<- | Hv]; try reflexivity; contradiction.
Defined.

(** The loop skips an empty entry: removing it changes nothing. *)
Lemma strateos_id_loop_skip_empty vs s :
  strateos_id_loop ("" :: vs) s = strateos_id_loop vs s.
Proof.
  cbn [strateos_id_loop]. unfold Str.removeprefix. simpl.
  now rewrite String.eqb_refl.
Qed.

(** Over any table, the entry that decides is the first one that is not
    empty and is a prefix; the entries after it are never looked at. *)
Lemma strateos_id_loop_first_match vs i x s :
  vs !! i = Some x -> x <> "" ->
  Str.startswith s x = true ->
  (forall j w, j < i -> vs !! j = Some w ->
               Str.startswith s w = false \/ w = "") ->
  strateos_id_loop vs s = Some (Str.slice_from (String.length x) s).
Proof.
  revert i; induction vs as [|y vs IH]; intros i Hi Hx Hsw Hbefore.
  - destruct i; discriminate.
  - destruct i as [|i].
    + injection Hi as ->. now apply strateos_id_loop_hit.
    + assert (Hskip : strateos_id_loop (y :: vs) s = strateos_id_loop vs s).
      { destruct (Hbefore 0 y) as [Hy | ->]; [lia | reflexivity | |].
        - now apply strateos_id_loop_skip.
        - apply strateos_id_loop_skip_empty. }
      rewrite Hskip. apply (IH i); try assumption.
      intros j w Hj Hw. apply (Hbefore (S j)); [lia | exact Hw].
Qed.

Lemma strateos_id_with_fragment vs uri :
  strateos_id_with vs uri =
  match fragment_of uri with
  | None => Raise (AttributeError NoneType_has_no_group)
  | Some frag =>
      match strateos_id_loop vs frag with
      | Some trimmed => Ok trimmed
      | None =>
          Raise (ValueError ("Unable to extract a strateos ID from " ++ uri))
      end
  end.
Proof.
  unfold strateos_id_with, fragment_of.
  now destruct (re.match_ PREFIX_SPLITER (basename uri)).
Qed.

(** C7. [strateos_id] scans the vendor table in its declared order and the
    first entry that is a prefix of the fragment is the one taken off.

    - The table that is scanned is the declared names, escaped and with
      their spaces encoded, in the order of the declaration.
    - [strateos_id] is its body run on that table.
    - Run on any table, the body returns the fragment without the entry at
      position [i] as soon as that entry is a non-empty prefix of the
      fragment and every earlier entry is skipped (it is not a prefix, or it
      is empty), whatever the later entries are.
    - In particular so at the table of the module.
    - The order decides: on two tables with the same entries in a different
      order the same URI gives different identifiers. *)
Theorem strateos_id_first_vendor_wins :
  VENDOR_STRINGS =
    [ "Fisher"; "ThermoFisher"; "Eppendorf"; "Costar"; "USA%20Scientific";
      "Mesoscale"; "Chemspeed"; "E&amp;K%20Scientific";
      "Sumitomo%20Bakelite%20Co."; "PerkinElmer"; "Labcyte"; "Greiner";
      "Corning"; "Axygen"; "Tradewinds" ]
  /\ (forall uri, strateos_id uri = strateos_id_with VENDOR_STRINGS uri)
  /\ (forall (vs : list string) uri frag i x,
        fragment_of uri = Some frag ->
        vs !! i = Some x ->
        x <> "" ->
        Str.startswith frag x = true ->
        (forall j w, j < i -> vs !! j = Some w ->
                     Str.startswith frag w = false \/ w = "") ->
        strateos_id_with vs uri = Ok (Str.slice_from (String.length x) frag)
        /\ frag = x ++ Str.slice_from (String.length x) frag)
  /\ (forall uri frag i x,
        fragment_of uri = Some frag ->
        VENDOR_STRINGS !! i = Some x ->
        Str.startswith frag x = true ->
        (forall j w, j < i -> VENDOR_STRINGS !! j = Some w ->
                     Str.startswith frag w = false) ->
        (exists name, vendor_names !! i = Some name
                      /\ x = Str.replace (html_escape name) " " "%20")
        /\ strateos_id uri = Ok (Str.slice_from (String.length x) frag)
        /\ frag = x ++ Str.slice_from (String.length x) frag)
  /\ strateos_id_with ["Fisher"; "FisherSci"]
       "https://example.org/cat#FisherSci1" = Ok "Sci1"
  /\ strateos_id_with ["FisherSci"; "Fisher"]
       "https://example.org/cat#FisherSci1" = Ok "1".
Proof.
  split; [reflexivity |]. split; [reflexivity |]. split; [| split].
  - intros vs uri frag i x Hf Hi Hx Hsw Hbefore. split.
    + rewrite strateos_id_with_fragment, Hf.
      now rewrite (strateos_id_loop_first_match vs i x frag).
    + now apply startswith_split.
  - intros uri frag i x Hf Hi Hsw Hbefore. split; [| split].
    + rewrite VENDOR_STRINGS_lookup in Hi.
      destruct (vendor_names !! i) as [name|]; [| discriminate].
      exists name. split; [reflexivity |]. now injection Hi as <-.
    + rewrite strateos_id_fragment, Hf.
      rewrite (strateos_id_loop_first _ i x); try assumption; [reflexivity |].
      apply VENDOR_STRINGS_nonempty. apply list_elem_of_In.
      now apply (list_elem_of_lookup_2 _ i).
    + now apply startswith_split.
  - split; reflexivity.
Qed.

(** Two runs of the theorem.  On a table where a later entry is a prefix of
    the fragment as well, and an earlier one is empty, the entry at position
    2 decides; on the table of the module, the entry whose name needed its
    ampersand escaped is found at position 7. *)
Lemma strateos_id_first_vendor_wins_witness :
  (strateos_id_with ["ThermoFisher"; ""; "Fisher"; "FisherSci"]
     "https://example.org/cat#FisherSci1"
   = Ok (Str.slice_from (String.length "Fisher") "FisherSci1")
   /\ "FisherSci1"
      = "Fisher" ++ Str.slice_from (String.length "Fisher") "FisherSci1")
  /\ ((exists name, vendor_names !! 7 = Some name
                    /\ "E&amp;K%20Scientific"
                       = Str.replace (html_escape name) " " "%20")
      /\ strateos_id "https://example.org/cat#E&amp;K%20Scientific648"
         = Ok (Str.slice_from (String.length "E&amp;K%20Scientific")
                 "E&amp;K%20Scientific648")
      /\ "E&amp;K%20Scientific648"
         = "E&amp;K%20Scientific"
             ++ Str.slice_from (String.length "E&amp;K%20Scientific")
                  "E&amp;K%20Scientific648").
Proof.
  split.
  - apply (proj1 (proj2 (proj2 strateos_id_first_vendor_wins))
             ["ThermoFisher"; ""; "Fisher"; "FisherSci"]
             "https://example.org/cat#FisherSci1" "FisherSci1" 2 "Fisher").
    + reflexivity.
    + reflexivity.
    + discriminate.
    + reflexivity.
    + intros j w Hj Hw.
      destruct j as [|j]; [injection Hw as <-; left; reflexivity |].
      destruct j as [|j]; [injection Hw as <-; right; reflexivity |]. lia.
  - apply (proj1 (proj2 (proj2 (proj2 strateos_id_first_vendor_wins)))
             "https://example.org/cat#E&amp;K%20Scientific648"
             "E&amp;K%20Scientific648" 7 "E&amp;K%20Scientific").
    + reflexivity.
    + reflexivity.
    + reflexivity.
    + intros j w Hj Hw.
      do 7 (destruct j as [|j]; [injection Hw as <-; reflexivity |]). lia.
Defined.

(** C10. When the fragment of the URI is exactly an entry of the vendor
    table, [strateos_id] returns the empty string and raises nothing. *)
Theorem strateos_id_bare_vendor_empty uri v :
  In v VENDOR_STRINGS ->
  fragment_of uri = Some v ->
  strateos_id uri = Ok "".
Proof.
  intros Hv Hf. apply (strateos_id_vendor_then_id uri v ""); [exact Hv |].
  now rewrite append_nil_r.
Qed.

Lemma strateos_id_bare_vendor_empty_witness :
  strateos_id "https://example.org/cat#Fisher" = Ok "".
Proof.
  apply (strateos_id_bare_vendor_empty "https://example.org/cat#Fisher" "Fisher").
  - simpl. tauto.
  - reflexivity.
Defined.

(** ** The query helper *)

Section ClientFacts.

Variable server : request -> result pyval.

Implicit Types (cs : ClassExpressionSpec) (addl : option string).

(** Every call sends exactly one request, whatever the server does. *)
Lemma matching_containers_requests cs base_url kb_name addl :
  requests (trace (matching_containers server cs base_url kb_name addl))
  = [request_of cs base_url kb_name addl].
Proof.
  run_helper. fold (request_of cs base_url kb_name addl).
  destruct (server (request_of cs base_url kb_name addl)) as [v | e].
  - cbn. now destruct (getitem v "has_instance").
  - now destruct e.
Qed.

(** A dictionary with the field is unwrapped to the value of the field. *)
Lemma matching_containers_success cs base_url kb_name addl d v :
  server (request_of cs base_url kb_name addl) = Ok (PyDict d) ->
  d !! "has_instance" = Some v ->
  matching_containers server cs base_url kb_name addl []
  = ([ ClientEnter {| host := base_url |};
       Sent (request_of cs base_url kb_name addl);
       ClientExit;
       Log DEBUG "Instances are %s" [PyDict d];
       Log DEBUG "Returning %s" [v] ],
     Ok v).
Proof.
  intros Hs Hd. run_helper. fold (request_of cs base_url kb_name addl).
  rewrite Hs. cbn. now rewrite Hd.
Qed.

(** After an [ApiException] the handler logs and falls through with
    [instances] still [None]; the subscript on it then raises. *)
Lemma matching_containers_api_failure cs base_url kb_name addl e :
  server (request_of cs base_url kb_name addl) = Raise (ApiException e) ->
  matching_containers server cs base_url kb_name addl []
  = ([ ClientEnter {| host := base_url |};
       Sent (request_of cs base_url kb_name addl);
       Log ERROR
         ("Exception when calling DLQueriesApi->kbs_kb_instances_get: "
            ++ e ++ nl) [];
       ClientExit;
       Log DEBUG "Instances are %s" [PyNone] ],
     Raise (TypeError NoneType_not_subscriptable)).
Proof.
  intros Hs. run_helper. fold (request_of cs base_url kb_name addl).
  now rewrite Hs.
Qed.

End ClientFacts.

(** ** Claims about matching_containers *)

(** C1, evaluated on the code.  When the client raises its [ApiException],
    the handler logs the failure and the client is released, but the helper
    then subscripts [None]: the call ends in a [TypeError] raised to the
    caller and returns no value. *)
Theorem matching_containers_api_failure_raises_TypeError
    (e : string) (cs : ClassExpressionSpec) (base_url kb_name : string)
    (addl : option string) :
  let server := fun _ : request => Raise (ApiException e) in
  outcome (matching_containers server cs base_url kb_name addl)
  = Raise (TypeError NoneType_not_subscriptable)
  /\ (forall v, ~ returns (outcome (matching_containers server cs base_url kb_name addl)) v)
  /\ In (Log ERROR
           ("Exception when calling DLQueriesApi->kbs_kb_instances_get: "
              ++ e ++ nl) [])
        (trace (matching_containers server cs base_url kb_name addl)).
Proof.
  intros server. unfold outcome, trace, returns.
  rewrite (matching_containers_api_failure server cs base_url kb_name addl e)
    by reflexivity.
  cbn [fst snd]. split; [reflexivity | split].
  - intros v H. discriminate H.
  - simpl. tauto.
Qed.

(** C2. Whatever the server does, the expression of the request is the
    query string followed by [" and "] and the additional conditions when
    these are supplied, and the query string itself when they are not. *)
Theorem matching_containers_expression_sent
    (server : request -> result pyval) (cs : ClassExpressionSpec)
    (base_url kb_name : string) :
  (forall c,
      map object
        (requests (trace (matching_containers server cs base_url kb_name (Some c))))
      = [queryString cs ++ " and " ++ c])
  /\ map object
       (requests (trace (matching_containers server cs base_url kb_name None)))
     = [queryString cs].
Proof.
  split; [intros c |]; now rewrite matching_containers_requests.
Qed.

(** C3. When the server answers the request with a dictionary, the call
    returns the value held under ["has_instance"] as it is: for a list of
    instance identifiers, that very list. *)
Theorem matching_containers_returns_has_instance
    (server : request -> result pyval) (cs : ClassExpressionSpec)
    (base_url kb_name : string) (addl : option string)
    (req : request) (d : gmap string pyval) (v : pyval) :
  requests (trace (matching_containers server cs base_url kb_name addl)) = [req] ->
  server req = Ok (PyDict d) ->
  d !! "has_instance" = Some v ->
  outcome (matching_containers server cs base_url kb_name addl) = Ok v.
Proof.
  intros Hreq Hs Hd. rewrite matching_containers_requests in Hreq.
  injection Hreq as <-. unfold outcome.
  now rewrite (matching_containers_success server cs base_url kb_name addl d v).
Qed.

Lemma matching_containers_returns_has_instance_witness :
  outcome
    (matching_containers
       (fun _ =>
          Ok (PyDict
                {[ "has_instance" :=
                     PyList [PyStr "https://example.org/cat#Corning3370";
                             PyStr "https://example.org/cat#Fisher0720"] ]}))
       {| queryString := "cont:ClearPlate"; prefixMap := "{}" |}
       default_base_url default_kb_name None)
  = Ok (PyList [PyStr "https://example.org/cat#Corning3370";
                PyStr "https://example.org/cat#Fisher0720"]).
Proof.
  eapply matching_containers_returns_has_instance.
  - reflexivity.
  - reflexivity.
  - reflexivity.
Defined.

(** C8. Every call sends exactly one request, and that request carries
    [direct = False] and [include_deprecated = True], whatever the caller
    passes and whatever the server does. *)
Theorem matching_containers_fixed_parameters
    (server : request -> result pyval) (cs : ClassExpressionSpec)
    (base_url kb_name : string) (addl : option string) :
  map (fun r => (direct r, include_deprecated r))
    (requests (trace (matching_containers server cs base_url kb_name addl)))
  = [(false, true)].
Proof.
  now rewrite matching_containers_requests.
Qed.

(** C9. With the empty string as additional conditions the expression sent
    is still extended: it is the query string followed by [" and "], which
    is not the query string that is sent when no conditions are given. *)
Theorem matching_containers_empty_conditions_appended
    (server : request -> result pyval) (cs : ClassExpressionSpec)
    (base_url kb_name : string) :
  map object
    (requests (trace (matching_containers server cs base_url kb_name (Some ""))))
  = [queryString cs ++ " and " ++ ""]
  /\ queryString cs ++ " and " ++ "" = queryString cs ++ " and "
  /\ map object
       (requests (trace (matching_containers server cs base_url kb_name (Some ""))))
     <> map object
          (requests (trace (matching_containers server cs base_url kb_name None))).
Proof.
  rewrite !matching_containers_requests. cbn [map object request_of].
  split; [reflexivity | split; [reflexivity |]].
  intros H. injection H as H.
  apply (f_equal String.length) in H.
  rewrite length_append in H. simpl in H. lia.
Qed.

(** * Further properties of the module *)

(** ** More on strings *)

Section MoreStringFacts.

Implicit Types s t x : string.

Lemma contains_slice_from n s c :
  Str.contains s c = false -> Str.contains (Str.slice_from n s) c = false.
Proof.
  revert s; induction n as [|n IH]; intros s H; [now destruct s |].
  destruct s as [|a s]; [reflexivity |].
  simpl in H. apply orb_false_elim in H as [_ H]. now apply IH.
Qed.

Lemma substring_middle x t y :
  substring (String.length x) (String.length t) (x ++ t ++ y) = t.
Proof.
  induction x as [|a x IH]; simpl; [| exact IH].
  induction t as [|b t IHt]; simpl; [now destruct y | now rewrite IHt].
Qed.

(** Two prefixes of one string: one of them is a prefix of the other. *)
Lemma startswith_comparable s x y :
  Str.startswith s x = true -> Str.startswith s y = true ->
  Str.startswith x y = true \/ Str.startswith y x = true.
Proof.
  revert s y; induction x as [|a x IH]; intros s y Hx Hy.
  - right. reflexivity.
  - destruct y as [|b y]; [left; reflexivity |].
    destruct s as [|c s]; [discriminate |].
    simpl in Hx, Hy.
    apply andb_prop in Hx as [Hac Hx]. apply andb_prop in Hy as [Hbc Hy].
    apply Ascii.eqb_eq in Hac, Hbc. subst a b.
    simpl. rewrite Ascii.eqb_refl. simpl. exact (IH s y Hx Hy).
Qed.

Lemma replace_removes s c new :
  Str.contains new c = false -> Str.contains (Str.replace s c new) c = false.
Proof.
  intros Hn. induction s as [|a s IH]; simpl; [reflexivity |].
  destruct (Ascii.eqb a c) eqn:E.
  - now rewrite contains_append, Hn, IH.
  - simpl. now rewrite E, IH.
Qed.

Lemma replace_keeps_absent s c new d :
  Str.contains s d = false -> Str.contains new d = false ->
  Str.contains (Str.replace s c new) d = false.
Proof.
  intros Hs Hn. induction s as [|a s IH]; simpl; [reflexivity |].
  simpl in Hs. apply orb_false_elim in Hs as [Ha Hs].
  destruct (Ascii.eqb a c).
  - now rewrite contains_append, Hn, IH.
  - simpl. now rewrite Ha, IH.
Qed.

Lemma replace_absent s c new :
  Str.contains s c = false -> Str.replace s c new = s.
Proof.
  induction s as [|a s IH]; simpl; [reflexivity |].
  intros H. apply orb_false_elim in H as [Ha Hs]. now rewrite Ha, IH.
Qed.

Lemma first_line_no_newline s : Str.contains (first_line s) re.newline = false.
Proof.
  induction s as [|a s IH]; simpl; [reflexivity |].
  destruct (Ascii.eqb a re.newline) eqn:E; [reflexivity |].
  simpl. now rewrite E, IH.
Qed.

Lemma first_line_split s :
  exists rest, s = first_line s ++ rest
               /\ (rest = "" \/ exists rest', rest = String re.newline rest').
Proof.
  induction s as [|a s (rest & IH & Hrest)]; simpl.
  - exists "". split; [reflexivity | now left].
  - destruct (Ascii.eqb a re.newline) eqn:E.
    + apply Ascii.eqb_eq in E. subst a.
      exists (String re.newline s). split; [reflexivity | right; now exists s].
    + exists rest. split; [simpl; now rewrite <- IH | exact Hrest].
Qed.

Lemma first_line_id s : Str.contains s re.newline = false -> first_line s = s.
Proof.
  induction s as [|a s IH]; simpl; [reflexivity |].
  intros H. apply orb_false_elim in H as [Ha Hs]. now rewrite Ha, IH.
Qed.

Lemma after_last_hash_none s :
  after_last_hash s = None <-> Str.contains s "#" = false.
Proof.
  induction s as [|a s IH]; simpl; [tauto |].
  destruct (after_last_hash s) as [t|].
  - split; [discriminate |]. intros H. apply orb_false_elim in H as [_ H].
    apply IH in H. discriminate.
  - destruct (Ascii.eqb a "#"); simpl; [split; discriminate |].
    split; intros _; [now apply IH | reflexivity].
Qed.

Lemma after_last_hash_some s t :
  after_last_hash s = Some t <->
  exists pre, s = pre ++ String "#" t /\ Str.contains t "#" = false.
Proof.
  revert t; induction s as [|a s IH]; intros t; simpl.
  - split; [discriminate | intros (pre & H & _); now destruct pre].
  - destruct (after_last_hash s) as [u|] eqn:Eu.
    + split.
      * intros [= ->]. destruct (proj1 (IH t) eq_refl) as (pre & -> & Ht).
        exists (String a pre). now split.
      * intros (pre & H & Ht). destruct pre as [|b pre]; simpl in H.
        -- injection H as Hb Hs; subst. apply after_last_hash_none in Ht.
           rewrite Ht in Eu. discriminate.
        -- injection H as Hb Hs; subst. f_equal. symmetry.
           assert (Hu : Some u = Some t); [| now injection Hu].
           apply IH. now exists pre.
    + destruct (Ascii.eqb a "#") eqn:Ea.
      * apply Ascii.eqb_eq in Ea. subst a. split.
        -- intros [= ->]. exists "". split; [reflexivity |].
           now apply after_last_hash_none.
        -- intros (pre & H & Ht). destruct pre as [|b pre]; simpl in H.
           ++ now injection H as ->.
           ++ injection H as Hb Hs; subst.
              assert (Hn : None = Some t) by (apply IH; now exists pre).
              discriminate.
      * split; [discriminate |].
        intros (pre & H & Ht). destruct pre as [|b pre]; simpl in H.
        -- injection H as Hb Hs; subst. rewrite Ascii.eqb_refl in Ea. discriminate.
        -- injection H as Hb Hs; subst.
           assert (Hn : None = Some t) by (apply IH; now exists pre).
           discriminate.
Qed.

End MoreStringFacts.

(** ** The matcher against a direct description *)

Section MoreRegexFacts.

Implicit Types (s : string) (g : nat * nat).

(** The closing dot-star stops at the end of the first line. *)
Lemma run_star_close_first_line s pos g :
  re.run [re.AnyStar; re.GroupClose] s pos g
  = Some (fst g, pos + String.length (first_line s)).
Proof.
  revert pos; induction s as [|a s IH]; intros pos.
  - simpl. do 2 f_equal. lia.
  - rewrite run_star_cons. simpl first_line.
    destruct (Ascii.eqb a re.newline).
    + simpl. do 2 f_equal. lia.
    + rewrite IH. simpl. do 2 f_equal. lia.
Qed.

(** What the backtracking run of [PREFIX_SPLITER] computes: the span of the
    text after the last hash sign of the first line. *)
Lemma run_PREFIX_SPLITER_spec s pos g :
  re.run PREFIX_SPLITER s pos g =
  match after_last_hash (first_line s) with
  | Some t =>
      Some (pos + String.length (first_line s) - String.length t,
            pos + String.length (first_line s))
  | None => None
  end.
Proof.
  unfold PREFIX_SPLITER. revert pos.
  induction s as [|a s IH]; intros pos; [reflexivity |].
  rewrite run_star_cons. simpl first_line.
  destruct (Ascii.eqb a re.newline) eqn:En.
  - apply Ascii.eqb_eq in En. subst a. reflexivity.
  - rewrite IH. simpl after_last_hash.
    destruct (after_last_hash (first_line s)) as [t|].
    + simpl String.length. do 2 f_equal; lia.
    + destruct (Ascii.eqb a "#") eqn:Ea.
      * apply Ascii.eqb_eq in Ea. subst a.
        rewrite run_literal_same, run_open, run_star_close_first_line.
        simpl. do 2 f_equal; lia.
      * cbn [re.run]. now rewrite Ea.
Qed.

Lemma match_group1_spec s :
  match re.match_ PREFIX_SPLITER s with
  | Some m => Some (re.group1 m)
  | None => None
  end = after_last_hash (first_line s).
Proof.
  unfold re.match_. rewrite run_PREFIX_SPLITER_spec.
  destruct (after_last_hash (first_line s)) as [t|] eqn:E; [| reflexivity].
  f_equal. unfold re.group1. cbn [re.start1 re.end1 re.subject].
  apply after_last_hash_some in E as (pre & Hfl & _).
  destruct (first_line_split s) as (rest & Hs & _).
  remember (first_line s) as fl eqn:Heq. clear Heq. subst fl.
  rewrite Hs.
  replace (String.length (pre ++ String "#" t)) with
    (String.length (pre ++ "#") + String.length t)
    by (rewrite !length_append; simpl; lia).
  replace (0 + (String.length (pre ++ "#") + String.length t) - String.length t)
    with (String.length (pre ++ "#")) by lia.
  replace (0 + (String.length (pre ++ "#") + String.length t)
           - String.length (pre ++ "#")) with (String.length t) by lia.
  replace ((pre ++ String "#" t) ++ rest) with ((pre ++ "#") ++ t ++ rest)
    by (now rewrite !append_assoc).
  apply substring_middle.
Qed.

End MoreRegexFacts.

(** ** More on basename *)

Section MoreBasenameFacts.

Lemma split_last_sep p :
  Str.contains p "/" = true ->
  exists d s, p = d ++ String "/" s /\ Str.contains s "/" = false.
Proof.
  induction p as [|a p IH]; simpl; [discriminate |].
  destruct (Str.contains p "/") eqn:Ep.
  - intros _. destruct (IH eq_refl) as (d & s & -> & Hs).
    exists (String a d), s. now split.
  - rewrite orb_false_r. intros Ha. apply Ascii.eqb_eq in Ha. subst a.
    exists "", p. now split.
Qed.

(** A path is a directory part followed by its basename, and the basename
    has no separator. *)
Lemma basename_split p :
  exists dir, p = dir ++ basename p /\ Str.contains (basename p) "/" = false.
Proof.
  destruct (Str.contains p "/") eqn:E.
  - destruct (split_last_sep p E) as (d & s & -> & Hs).
    rewrite (basename_last _ _ Hs). exists (d ++ "/").
    split; [now rewrite append_assoc | exact Hs].
  - rewrite (basename_no_sep _ E). exists "". now split.
Qed.

End MoreBasenameFacts.

(** ** More on the fragment and the loop *)

Section MoreStrateosFacts.

Implicit Types (uri frag r : string) (vs : list string).

Lemma fragment_of_spec uri :
  fragment_of uri = after_last_hash (first_line (basename uri)).
Proof. unfold fragment_of. apply match_group1_spec. Qed.

Lemma fragment_of_clean uri frag :
  fragment_of uri = Some frag ->
  Str.contains frag "/" = false
  /\ Str.contains frag "#" = false
  /\ Str.contains frag re.newline = false.
Proof.
  rewrite fragment_of_spec. intros H.
  apply after_last_hash_some in H as (pre & Hfl & Hh).
  destruct (basename_split uri) as (dir & _ & Hsep).
  destruct (first_line_split (basename uri)) as (rest & Hb & _).
  pose proof (first_line_no_newline (basename uri)) as Hnl.
  rewrite Hb, contains_append in Hsep. apply orb_false_elim in Hsep as [Hsep _].
  rewrite Hfl in Hsep, Hnl.
  rewrite contains_append in Hsep, Hnl.
  apply orb_false_elim in Hsep as [_ Hsep]. apply orb_false_elim in Hnl as [_ Hnl].
  simpl in Hsep, Hnl.
  repeat split; [exact Hsep | exact Hh | exact Hnl].
Qed.

Lemma fragment_of_decompose uri frag :
  fragment_of uri = Some frag ->
  exists pre rest,
    uri = pre ++ "#" ++ frag ++ rest
    /\ (rest = "" \/ exists rest', rest = String re.newline rest').
Proof.
  rewrite fragment_of_spec. intros H.
  apply after_last_hash_some in H as (pre & Hfl & _).
  destruct (basename_split uri) as (dir & Hu & _).
  destruct (first_line_split (basename uri)) as (rest & Hb & Hrest).
  exists (dir ++ pre), rest. split; [| exact Hrest].
  rewrite Hu at 1. rewrite Hb, Hfl. simpl.
  now rewrite !append_assoc.
Qed.

(** What the loop returns was obtained by taking a non-empty entry off the
    front. *)
Lemma strateos_id_loop_sound vs s r :
  strateos_id_loop vs s = Some r ->
  exists x, In x vs /\ x <> "" /\ s = x ++ r.
Proof.
  rewrite strateos_id_loop_find.
  destruct (find _ vs) as [x|] eqn:E; [| discriminate].
  intros [= <-]. apply find_some in E as [Hin Hp].
  apply andb_prop in Hp as [Hsw Hne].
  exists x. split; [exact Hin |]. split.
  - intros ->. discriminate.
  - now apply startswith_split.
Qed.

Lemma strateos_id_loop_none_inv vs s x :
  strateos_id_loop vs s = None -> In x vs -> x <> "" ->
  Str.startswith s x = false.
Proof.
  rewrite strateos_id_loop_find.
  destruct (find _ vs) as [y|] eqn:E; [discriminate |].
  intros _ Hin Hx. pose proof (find_none _ _ E x Hin) as Hp. simpl in Hp.
  destruct (Str.startswith s x); [| reflexivity].
  destruct (String.eqb_spec x ""); [contradiction | discriminate].
Qed.

(** No entry of the table is a prefix of another entry. *)
Lemma VENDOR_STRINGS_prefix_free v w :
  In v VENDOR_STRINGS -> In w VENDOR_STRINGS ->
  Str.startswith v w = true -> v = w.
Proof.
  intros Hv Hw Hsw.
  assert (Hall : forallb (fun v => forallb (fun w =>
             implb (Str.startswith v w) (String.eqb v w)) VENDOR_STRINGS)
             VENDOR_STRINGS = true) by reflexivity.
  rewrite forallb_forall in Hall. specialize (Hall v Hv).
  rewrite forallb_forall in Hall. specialize (Hall w Hw).
  rewrite Hsw in Hall. now apply String.eqb_eq.
Qed.

Lemma VENDOR_STRINGS_vendor_string :
  VENDOR_STRINGS = map vendor_string vendor_names.
Proof. reflexivity. Qed.

End MoreStrateosFacts.

Lemma find_unique_perm {A} (P : A -> bool) (l l' : list A) :
  (forall x y, In x l -> In y l -> P x = true -> P y = true -> x = y) ->
  Permutation l l' -> find P l = find P l'.
Proof.
  intros Hu Hp. destruct (find P l) as [x|] eqn:E.
  - apply find_some in E as [Hin HP].
    destruct (find P l') as [y|] eqn:E'.
    + apply find_some in E' as [Hin' HP']. f_equal. apply Hu; try assumption.
      apply (Permutation_in _ (Permutation_sym Hp) Hin').
    + pose proof (find_none _ _ E' x (Permutation_in _ Hp Hin)). congruence.
  - destruct (find P l') as [y|] eqn:E'; [| reflexivity].
    apply find_some in E' as [Hin' HP'].
    pose proof (find_none _ _ E y (Permutation_in _ (Permutation_sym Hp) Hin')).
    congruence.
Qed.

(** ** Further properties of strateos_id *)

(** X1. The text that [strateos_id] works on is the part of the first line of
    the basename that follows its last hash sign: [PREFIX_SPLITER] yields
    [frag] as group 1 exactly when that line is some text, a hash sign, and
    [frag] without a hash sign. *)
Theorem fragment_of_after_last_hash uri frag :
  fragment_of uri = Some frag <->
  exists pre, first_line (basename uri) = pre ++ "#" ++ frag
              /\ Str.contains frag "#" = false.
Proof. rewrite fragment_of_spec. apply after_last_hash_some. Qed.

(** X2. [strateos_id] raises the [AttributeError] of the missing match
    exactly when the first line of the basename of the URI has no hash
    sign. *)
Theorem strateos_id_AttributeError_iff uri :
  strateos_id uri = Raise (AttributeError NoneType_has_no_group) <->
  Str.contains (first_line (basename uri)) "#" = false.
Proof.
  rewrite strateos_id_fragment, fragment_of_spec, <- after_last_hash_none.
  destruct (after_last_hash (first_line (basename uri))) as [frag|].
  - split; [| discriminate].
    destruct (strateos_id_loop VENDOR_STRINGS frag); discriminate.
  - split; reflexivity.
Qed.

(** X3. [strateos_id] raises a [ValueError] exactly when the URI has a
    fragment that starts with no entry of the vendor table, and the message
    is then the fixed text followed by the URI as it was passed. *)
Theorem strateos_id_ValueError_iff uri msg :
  strateos_id uri = Raise (ValueError msg) <->
  msg = "Unable to extract a strateos ID from " ++ uri
  /\ exists frag, fragment_of uri = Some frag
                  /\ forall v, In v VENDOR_STRINGS -> Str.startswith frag v = false.
Proof.
  rewrite strateos_id_fragment. split.
  - destruct (fragment_of uri) as [frag|]; [| discriminate].
    destruct (strateos_id_loop VENDOR_STRINGS frag) eqn:E; [discriminate |].
    intros [= <-]. split; [reflexivity |]. exists frag. split; [reflexivity |].
    intros v Hv.
    apply (strateos_id_loop_none_inv _ _ _ E Hv (VENDOR_STRINGS_nonempty _ Hv)).
  - intros (-> & frag & -> & Hv). now rewrite (strateos_id_loop_none _ _ Hv).
Qed.

(** X4. Whatever [strateos_id] returns can be read back in the URI: the URI
    is some text, a hash sign, an entry of the vendor table, the returned
    identifier, and then nothing or a newline and more text. *)
Theorem strateos_id_result_decomposes uri r :
  strateos_id uri = Ok r ->
  exists pre v rest,
    In v VENDOR_STRINGS
    /\ uri = pre ++ "#" ++ v ++ r ++ rest
    /\ (rest = "" \/ exists rest', rest = String re.newline rest').
Proof.
  rewrite strateos_id_fragment.
  destruct (fragment_of uri) as [frag|] eqn:Ef; [| discriminate].
  destruct (strateos_id_loop VENDOR_STRINGS frag) as [t|] eqn:El; [| discriminate].
  intros [= ->].
  apply strateos_id_loop_sound in El as (v & Hv & _ & ->).
  apply fragment_of_decompose in Ef as (pre & rest & Hu & Hrest).
  exists pre, v, rest. split; [exact Hv |]. split; [| exact Hrest].
  rewrite Hu. simpl. now rewrite append_assoc.
Qed.

Lemma strateos_id_result_decomposes_witness :
  exists pre v rest,
    In v VENDOR_STRINGS
    /\ "https://example.org/cat#GreinerM-655101"
       = pre ++ "#" ++ v ++ "M-655101" ++ rest
    /\ (rest = "" \/ exists rest', rest = String re.newline rest').
Proof.
  apply (strateos_id_result_decomposes
           "https://example.org/cat#GreinerM-655101" "M-655101").
  reflexivity.
Defined.

(** X5. An identifier returned by [strateos_id] holds no path separator, no
    hash sign and no newline, and is shorter than the URI it was taken
    from. *)
Theorem strateos_id_result_clean uri r :
  strateos_id uri = Ok r ->
  Str.contains r "/" = false
  /\ Str.contains r "#" = false
  /\ Str.contains r re.newline = false
  /\ String.length r < String.length uri.
Proof.
  intros H. split; [| split; [| split]].
  1-3: rewrite strateos_id_fragment in H;
       destruct (fragment_of uri) as [frag|] eqn:Ef; [| discriminate];
       destruct (strateos_id_loop VENDOR_STRINGS frag) as [t|] eqn:El;
         [| discriminate];
       injection H as ->;
       apply strateos_id_loop_sound in El as (v & _ & _ & ->);
       apply fragment_of_clean in Ef as (H1 & H2 & H3);
       rewrite contains_append in H1, H2, H3;
       apply orb_false_elim in H1 as [_ H1];
       apply orb_false_elim in H2 as [_ H2];
       apply orb_false_elim in H3 as [_ H3]; assumption.
  apply strateos_id_result_decomposes in H as (pre & v & rest & _ & -> & _).
  rewrite !length_append. simpl. lia.
Qed.

Lemma strateos_id_result_clean_witness :
  Str.contains "3370" "/" = false
  /\ Str.contains "3370" "#" = false
  /\ Str.contains "3370" re.newline = false
  /\ String.length "3370" < String.length "https://example.org/cat#Corning3370".
Proof.
  apply (strateos_id_result_clean "https://example.org/cat#Corning3370" "3370").
  reflexivity.
Defined.

Lemma VENDOR_STRINGS_one_prefix frag v w :
  In v VENDOR_STRINGS -> In w VENDOR_STRINGS ->
  Str.startswith frag v = true -> Str.startswith frag w = true ->
  v = w.
Proof.
  intros Hv Hw Sv Sw.
  destruct (startswith_comparable frag v w Sv Sw) as [H | H].
  - now apply VENDOR_STRINGS_prefix_free.
  - symmetry. now apply VENDOR_STRINGS_prefix_free.
Qed.

(** X6. A fragment starts with at most one entry of the vendor table, so
    which vendor is taken off never depends on a choice between two. *)
Theorem VENDOR_STRINGS_unambiguous frag v w :
  In v VENDOR_STRINGS -> In w VENDOR_STRINGS ->
  Str.startswith frag v = true -> Str.startswith frag w = true ->
  v = w.
Proof.
  intros Hv Hw Sv Sw.
  destruct (startswith_comparable frag v w Sv Sw) as [H | H];
    [| symmetry]; now apply VENDOR_STRINGS_prefix_free.
Qed.

Lemma VENDOR_STRINGS_unambiguous_witness : "ThermoFisher" = "ThermoFisher".
Proof.
  apply (VENDOR_STRINGS_unambiguous "ThermoFisher88");
    solve [simpl; tauto | reflexivity].
Defined.

(** X7. The loop of [strateos_id] gives the same answer on every fragment
    when the vendor table is put in any other order. *)
Theorem strateos_id_loop_order_irrelevant vs frag :
  Permutation VENDOR_STRINGS vs ->
  strateos_id_loop vs frag = strateos_id_loop VENDOR_STRINGS frag.
Proof.
  intros Hp. rewrite !strateos_id_loop_find.
  rewrite (find_unique_perm _ VENDOR_STRINGS vs); [reflexivity | | exact Hp].
  intros x y Hx Hy Px Py.
  apply andb_prop in Px as [Px _]. apply andb_prop in Py as [Py _].
  exact (VENDOR_STRINGS_one_prefix frag x y Hx Hy Px Py).
Qed.

Lemma strateos_id_loop_order_irrelevant_witness :
  strateos_id_loop (rev VENDOR_STRINGS) "Corning3370"
  = strateos_id_loop VENDOR_STRINGS "Corning3370".
Proof.
  apply (strateos_id_loop_order_irrelevant (rev VENDOR_STRINGS) "Corning3370").
  apply Permutation_rev.
Defined.

(** X8. A URI that ends with a path separator has an empty basename, and
    [strateos_id] raises the [AttributeError] of the missing match on it. *)
Theorem strateos_id_trailing_separator p :
  basename (p ++ "/") = ""
  /\ strateos_id (p ++ "/") = Raise (AttributeError NoneType_has_no_group).
Proof.
  assert (Hb : basename (p ++ "/") = "") by now apply basename_last.
  split; [exact Hb |]. apply strateos_id_no_match. now rewrite Hb.
Qed.

(** ** The entries of the vendor table *)

(** X9. Whatever the declared name, its entry in the vendor table holds no
    space, no angle bracket and no quote of either kind. *)
Theorem vendor_string_no_special x :
  VENDOR_STRINGS = map vendor_string vendor_names
  /\ Str.contains (vendor_string x) " " = false
  /\ Str.contains (vendor_string x) "<" = false
  /\ Str.contains (vendor_string x) ">" = false
  /\ Str.contains (vendor_string x) (ascii_of_nat 34) = false
  /\ Str.contains (vendor_string x) "'" = false.
Proof.
  split; [reflexivity |]. unfold vendor_string, html_escape.
  repeat split.
  - now apply replace_removes.
  - apply replace_keeps_absent; [| reflexivity].
    do 3 (apply replace_keeps_absent; [| reflexivity]).
    now apply replace_removes.
  - apply replace_keeps_absent; [| reflexivity].
    do 2 (apply replace_keeps_absent; [| reflexivity]).
    now apply replace_removes.
  - apply replace_keeps_absent; [| reflexivity].
    apply replace_keeps_absent; [| reflexivity].
    now apply replace_removes.
  - apply replace_keeps_absent; [| reflexivity].
    now apply replace_removes.
Qed.

(** X10. A declared name without ampersand, angle bracket, quote or space is
    its own entry in the vendor table. *)
Theorem vendor_string_plain x :
  Str.contains x "&" = false ->
  Str.contains x "<" = false ->
  Str.contains x ">" = false ->
  Str.contains x (ascii_of_nat 34) = false ->
  Str.contains x "'" = false ->
  Str.contains x " " = false ->
  vendor_string x = x.
Proof.
  intros H1 H2 H3 H4 H5 H6. unfold vendor_string, html_escape.
  cbv zeta.
  rewrite (replace_absent x "&") by assumption.
  rewrite (replace_absent x "<") by assumption.
  rewrite (replace_absent x ">") by assumption.
  rewrite (replace_absent x (ascii_of_nat 34)) by assumption.
  rewrite (replace_absent x "'") by assumption.
  now apply replace_absent.
Qed.

Lemma vendor_string_plain_witness : vendor_string "PerkinElmer" = "PerkinElmer".
Proof.
  apply (vendor_string_plain "PerkinElmer"); reflexivity.
Defined.


(** ** Further properties of matching_containers *)

(** The four ways a call can go, by the answer of the server. *)
Lemma matching_containers_cases
    (server : request -> result pyval) (cs : ClassExpressionSpec)
    (base_url kb_name : string) (addl : option string) :
  let req := request_of cs base_url kb_name addl in
  let enter := ClientEnter {| host := base_url |} in
  matching_containers server cs base_url kb_name addl [] =
  match server req with
  | Ok v =>
      match getitem v "has_instance" with
      | Ok x =>
          ([enter; Sent req; ClientExit;
            Log DEBUG "Instances are %s" [v]; Log DEBUG "Returning %s" [x]],
           Ok x)
      | Raise e =>
          ([enter; Sent req; ClientExit; Log DEBUG "Instances are %s" [v]],
           Raise e)
      end
  | Raise (ApiException e) =>
      ([enter; Sent req;
        Log ERROR
          ("Exception when calling DLQueriesApi->kbs_kb_instances_get: "
             ++ e ++ nl) [];
        ClientExit; Log DEBUG "Instances are %s" [PyNone]],
       Raise (TypeError NoneType_not_subscriptable))
  | Raise e => ([enter; Sent req; ClientExit], Raise e)
  end.
Proof.
  intros req enter. run_helper. fold (request_of cs base_url kb_name addl).
  fold req. destruct (server req) as [v | e].
  - cbn. now destruct (getitem v "has_instance").
  - now destruct e.
Qed.

(** X11. The request carries the caller's base URL as the host of the
    client, the caller's knowledgebase name, and the prefix map of the
    specification, each unchanged. *)
Theorem matching_containers_passes_arguments
    (server : request -> result pyval) (cs : ClassExpressionSpec)
    (base_url kb_name : string) (addl : option string) :
  map (fun r => (host (configuration r), kb r, prefixes r))
    (requests (trace (matching_containers server cs base_url kb_name addl)))
  = [(base_url, kb_name, prefixMap cs)].
Proof. now rewrite matching_containers_requests. Qed.

(** X12. On every path, also when the server raises, the call opens the
    client once, sends one request through it, and releases it once, in this
    order; everything else it does is logging. *)
Theorem matching_containers_client_released
    (server : request -> result pyval) (cs : ClassExpressionSpec)
    (base_url kb_name : string) (addl : option string) :
  List.filter (fun ev => negb (is_log ev))
    (trace (matching_containers server cs base_url kb_name addl))
  = [ClientEnter {| host := base_url |};
     Sent (request_of cs base_url kb_name addl);
     ClientExit].
Proof.
  unfold trace. rewrite matching_containers_cases. cbv zeta.
  destruct (server (request_of cs base_url kb_name addl)) as [v | e].
  - now destruct (getitem v "has_instance").
  - now destruct e.
Qed.

(** X13. An ERROR record is logged exactly when the server raised an
    [ApiException]; answers and other exceptions leave no ERROR record. *)
Theorem matching_containers_error_log
    (server : request -> result pyval) (cs : ClassExpressionSpec)
    (base_url kb_name : string) (addl : option string) :
  existsb is_error_log
    (trace (matching_containers server cs base_url kb_name addl))
  = match server (request_of cs base_url kb_name addl) with
    | Raise e => is_ApiException e
    | Ok _ => false
    end.
Proof.
  unfold trace. rewrite matching_containers_cases. cbv zeta.
  destruct (server (request_of cs base_url kb_name addl)) as [v | e].
  - now destruct (getitem v "has_instance").
  - now destruct e.
Qed.

(** X14. An exception of the server that is not an [ApiException] reaches the
    caller as it is: the client is released and nothing is logged. *)
Theorem matching_containers_other_exception_propagates
    (server : request -> result pyval) (cs : ClassExpressionSpec)
    (base_url kb_name : string) (addl : option string) (e : exn) :
  server (request_of cs base_url kb_name addl) = Raise e ->
  is_ApiException e = false ->
  matching_containers server cs base_url kb_name addl []
  = ([ClientEnter {| host := base_url |};
      Sent (request_of cs base_url kb_name addl);
      ClientExit],
     Raise e).
Proof.
  intros Hs He. rewrite matching_containers_cases. cbv zeta. rewrite Hs.
  destruct e; try reflexivity. discriminate He.
Qed.

Lemma matching_containers_other_exception_propagates_witness :
  let cs := {| queryString := "cont:ClearPlate"; prefixMap := "{}" |} in
  let e := OtherException "urllib3.exceptions.MaxRetryError" "Connection refused" in
  matching_containers (fun _ => Raise e) cs default_base_url default_kb_name None []
  = ([ClientEnter {| host := default_base_url |};
      Sent (request_of cs default_base_url default_kb_name None);
      ClientExit],
     Raise e).
Proof.
  intros cs e.
  apply (matching_containers_other_exception_propagates
           (fun _ => Raise e) cs default_base_url default_kb_name None e);
    reflexivity.
Defined.

(** X15. When the server answers with a dictionary that has no
    ["has_instance"] entry, the call logs the answer and raises a [KeyError]
    for that key. *)
Theorem matching_containers_missing_field
    (server : request -> result pyval) (cs : ClassExpressionSpec)
    (base_url kb_name : string) (addl : option string)
    (d : gmap string pyval) :
  server (request_of cs base_url kb_name addl) = Ok (PyDict d) ->
  d !! "has_instance" = None ->
  matching_containers server cs base_url kb_name addl []
  = ([ClientEnter {| host := base_url |};
      Sent (request_of cs base_url kb_name addl);
      ClientExit;
      Log DEBUG "Instances are %s" [PyDict d]],
     Raise (KeyError "has_instance")).
Proof.
  intros Hs Hd. rewrite matching_containers_cases. cbv zeta. rewrite Hs.
  cbn [getitem]. now rewrite Hd.
Qed.

Lemma matching_containers_missing_field_witness :
  let cs := {| queryString := "cont:ClearPlate"; prefixMap := "{}" |} in
  let d : gmap string pyval := {[ "is_instance" := PyList [] ]} in
  matching_containers (fun _ => Ok (PyDict d)) cs default_base_url
    default_kb_name (Some "cont:SLAS-4-2004") []
  = ([ClientEnter {| host := default_base_url |};
      Sent (request_of cs default_base_url default_kb_name
              (Some "cont:SLAS-4-2004"));
      ClientExit;
      Log DEBUG "Instances are %s" [PyDict d]],
     Raise (KeyError "has_instance")).
Proof.
  intros cs d.
  apply (matching_containers_missing_field
           (fun _ => Ok (PyDict d)) cs default_base_url default_kb_name
           (Some "cont:SLAS-4-2004") d);
    reflexivity.
Defined.

(** X16. When the server answers with a value that is not a dictionary, the
    call raises a [TypeError] and returns nothing. *)
Theorem matching_containers_non_dict_answer
    (server : request -> result pyval) (cs : ClassExpressionSpec)
    (base_url kb_name : string) (addl : option string) (v : pyval) :
  server (request_of cs base_url kb_name addl) = Ok v ->
  (forall d, v <> PyDict d) ->
  exists msg,
    outcome (matching_containers server cs base_url kb_name addl)
    = Raise (TypeError msg).
Proof.
  intros Hs Hv. unfold outcome. rewrite matching_containers_cases. cbv zeta.
  rewrite Hs. destruct v; cbn; try (eexists; reflexivity).
  now destruct (Hv d).
Qed.

Lemma matching_containers_non_dict_answer_witness :
  exists msg,
    outcome
      (matching_containers
         (fun _ => Ok (PyList [PyStr "https://example.org/cat#Corning3370"]))
         {| queryString := "cont:ClearPlate"; prefixMap := "{}" |}
         default_base_url default_kb_name None)
    = Raise (TypeError msg).
Proof.
  eapply matching_containers_non_dict_answer.
  - reflexivity.
  - intros d H. discriminate H.
Defined.

(** X17. A value returned by the call is always the ["has_instance"] entry of
    a dictionary that the server answered with: no result is made up, and no
    failure is turned into an empty result. *)
Theorem matching_containers_result_from_answer
    (server : request -> result pyval) (cs : ClassExpressionSpec)
    (base_url kb_name : string) (addl : option string) (v : pyval) :
  outcome (matching_containers server cs base_url kb_name addl) = Ok v ->
  exists d,
    server (request_of cs base_url kb_name addl) = Ok (PyDict d)
    /\ d !! "has_instance" = Some v.
Proof.
  unfold outcome. rewrite matching_containers_cases. cbv zeta.
  destruct (server (request_of cs base_url kb_name addl)) as [w | e].
  - destruct w; cbn; try discriminate.
    destruct (d !! "has_instance") as [x|] eqn:Hd; cbn; [| discriminate].
    intros [= ->]. now exists d.
  - destruct e; discriminate.
Qed.

Lemma matching_containers_result_from_answer_witness :
  let cs := {| queryString := "cont:ClearPlate"; prefixMap := "{}" |} in
  let server : request -> result pyval :=
    fun _ => Ok (PyDict {[ "has_instance" := PyList [] ]}) in
  exists d,
    server (request_of cs default_base_url default_kb_name None) = Ok (PyDict d)
    /\ d !! "has_instance" = Some (PyList []).
Proof.
  intros cs server.
  apply (matching_containers_result_from_answer
           server cs default_base_url default_kb_name None (PyList [])).
  reflexivity.
Defined.

(** X18. The call never raises an [ApiException] to its caller, whatever the
    server does. *)
Theorem matching_containers_no_ApiException
    (server : request -> result pyval) (cs : ClassExpressionSpec)
    (base_url kb_name : string) (addl : option string) (e : exn) :
  outcome (matching_containers server cs base_url kb_name addl) = Raise e ->
  is_ApiException e = false.
Proof.
  unfold outcome. rewrite matching_containers_cases. cbv zeta.
  destruct (server (request_of cs base_url kb_name addl)) as [w | e'].
  - destruct w; cbn; try (intros [= <-]; reflexivity).
    destruct (d !! "has_instance"); cbn; [discriminate |].
    intros [= <-]. reflexivity.
  - destruct e'; cbn; intros [= <-]; reflexivity.
Qed.

Lemma matching_containers_no_ApiException_witness :
  is_ApiException (TypeError NoneType_not_subscriptable) = false.
Proof.
  apply (matching_containers_no_ApiException
           (fun _ => Raise (ApiException "(503)"))
           {| queryString := "cont:ClearPlate"; prefixMap := "{}" |}
           default_base_url default_kb_name None).
  reflexivity.
Defined.
